(** * Subtitle timing and caption muxing of [backend/services/subtitleService.js]

    A shallow embedding of the subtitle service: the cue timer
    [createSmartSubtitles] (a pure function over JavaScript strings and
    numbers) and the muxing orchestration [processSubtitles] (stateful code
    over a file system and an external transcoding engine).

    JavaScript numbers are IEEE-754 binary64 values; they are modelled by the
    standard library's [spec_float] at precision 53 and maximal exponent 1024,
    so every arithmetic step rounds exactly as the program's does.
    JavaScript strings are sequences of UTF-16 code units. *)

From stdpp Require Import base gmap strings list.
From Stdlib Require Import ZArith Lia SpecFloat DecimalString.

Local Open Scope Z_scope.

(** ** JavaScript strings *)

Abbreviation jsstring := (list N).

(** A string literal, one code unit per character. *)
Definition js (s : string) : jsstring :=
  map Ascii.N_of_ascii (String.list_ascii_of_string s).

Definition nl : jsstring := [10%N].

(** ** JavaScript numbers *)

Module Number.

Definition prec : Z := 53.
Definition emax : Z := 1024.

Abbreviation number := spec_float.

Definition add : number -> number -> number := SFadd prec emax.
Definition mul : number -> number -> number := SFmul prec emax.
Definition div : number -> number -> number := SFdiv prec emax.
Definition ltb : number -> number -> bool := SFltb.
Definition leb : number -> number -> bool := SFleb.

(** An integer of the source text, or an array length, as a number. *)
Definition of_Z (z : Z) : number := binary_normalize prec emax z 0 false.
Definition of_nat (n : nat) : number := of_Z (Z.of_nat n).

(** A decimal literal [n/d] with [d] a power of ten: the double nearest to
    it, which the correctly rounded quotient of the two integers is. *)
Definition lit (n d : Z) : number := div (of_Z n) (of_Z d).

Definition is_nan (x : number) : bool :=
  match x with S754_nan => true | _ => false end.

Definition is_neg_zero (x : number) : bool :=
  match x with S754_zero true => true | _ => false end.

(** [Math.min] of two arguments: NaN if either is NaN, and -0 counts as
    smaller than +0. *)
Definition Math_min (a b : number) : number :=
  if is_nan a || is_nan b then S754_nan
  else if ltb a b then a
  else if ltb b a then b
  else if is_neg_zero a then a
  else if is_neg_zero b then b
  else a.

(** [Math.floor]. *)
Definition Math_floor (x : number) : number :=
  match x with
  | S754_finite s m e =>
      if 0 <=? e then x
      else match Z.shiftr (cond_Zopp s (Zpos m)) (- e) with
           | Z0 => S754_zero s
           | k => of_Z k
           end
  | _ => x
  end.

(** The [%] operator: the remainder has the sign of the dividend and is
    computed exactly. *)
Definition rem (x y : number) : number :=
  match x, y with
  | S754_nan, _ | _, S754_nan => S754_nan
  | S754_infinity _, _ => S754_nan
  | _, S754_zero _ => S754_nan
  | _, S754_infinity _ => x
  | S754_zero _, _ => x
  | S754_finite sx mx ex, S754_finite _ my ey =>
      let ez := Z.min ex ey in
      match Z.rem (Zpos (fst (shl_align mx ex ez)))
                  (Zpos (fst (shl_align my ey ez))) with
      | Z0 => S754_zero sx
      | r => binary_normalize prec emax (cond_Zopp sx r) ez false
      end
  end.

End Number.
Export Number.

(** ** [Number.prototype.toString] (radix 10)

    ECMAScript renders a finite non-zero number [v] from the integers
    [n], [k] and [s] with [k] as small as possible such that
    [s * 10^(n-k)] reads back as [v]; among several [s] the one closest to
    [v] is taken.  The value [v = m * 2^e] and the two ends of the interval
    of reals that round to it are kept as numerators over a common
    denominator. *)

Module NumberToString.

Definition digits (n : Z) : jsstring :=
  js (NilZero.string_of_uint (N.to_uint (Z.to_N n))).

Definition pow10 (p : Z) : Z := 10 ^ Z.max p 0.

Record interval := {
  den : Z;          (* common denominator *)
  num : Z;          (* the value *)
  lo : Z; hi : Z;   (* half-way to the neighbouring doubles *)
  closed : bool     (* the ends round to the value (even mantissa) *)
}.

Definition interval_of (m : positive) (e : Z) : interval :=
  let up := 2 ^ Z.max e 0 in
  let v := 4 * Zpos m * up in
  let binade_start := (Zpos m =? 2 ^ (prec - 1)) && (emin prec emax <? e) in
  {| den := 4 * 2 ^ Z.max (- e) 0;
     num := v;
     lo := v - (if binade_start then 1 else 2) * up;
     hi := v + 2 * up;
     closed := Z.even (Zpos m) |}.

(** [s * 10^p] compared with the numerator [x]. *)
Definition cmp_at (i : interval) (s p x : Z) : comparison :=
  (s * pow10 p * den i ?= x * pow10 (- p)).

Definition fits (i : interval) (s p : Z) : bool :=
  match cmp_at i s p (lo i), cmp_at i s p (hi i) with
  | Gt, Lt => true
  | Eq, Lt | Gt, Eq => closed i
  | _, _ => false
  end.

Definition dist (i : interval) (s p : Z) : Z :=
  Z.abs (s * pow10 p * den i - num i * pow10 (- p)).

(** The least [n] with [v < 10^n]. *)
Fixpoint find_n (fuel : nat) (i : interval) (n : Z) : Z :=
  match fuel with
  | O => n
  | S fuel' =>
      if num i * pow10 (- n) <? pow10 n * den i then n
      else find_n fuel' i (n + 1)
  end.

(** The least [k] with a candidate [s] of [k] digits. *)
Fixpoint find_k (fuel : nat) (i : interval) (n k : Z) : Z * Z :=
  let p := n - k in
  let s := (num i * pow10 (- p)) / (den i * pow10 p) in
  match fuel with
  | O => (s, k)
  | S fuel' =>
      match fits i s p, fits i (s + 1) p with
      | true, true =>
          match dist i s p ?= dist i (s + 1) p with
          | Lt => (s, k)
          | Gt => (s + 1, k)
          | Eq => (if Z.even s then s else s + 1, k)
          end
      | true, false => (s, k)
      | false, true => (s + 1, k)
      | false, false => find_k fuel' i n (k + 1)
      end
  end.

Definition shortest (m : positive) (e : Z) : Z * Z * Z :=
  let i := interval_of m e in
  let n := find_n 700 i (-330) in
  let '(s, k) := find_k 17 i n 1 in
  if s =? 10 ^ k then (1, 1, n + 1) else (s, k, n).

Definition zeros (n : Z) : jsstring := replicate (Z.to_nat n) 48%N.

Definition render (s k n : Z) : jsstring :=
  let ds := digits s in
  if (k <=? n) && (n <=? 21) then ds ++ zeros (n - k)
  else if (0 <? n) && (n <=? 21) then
    take (Z.to_nat n) ds ++ js "." ++ drop (Z.to_nat n) ds
  else if (-6 <? n) && (n <=? 0) then js "0." ++ zeros (- n) ++ ds
  else
    let ex := n - 1 in
    let sign := if ex <? 0 then js "-" else js "+" in
    if k =? 1 then ds ++ js "e" ++ sign ++ digits (Z.abs ex)
    else take 1 ds ++ js "." ++ drop 1 ds ++ js "e" ++ sign ++ digits (Z.abs ex).

Definition toString (x : number) : jsstring :=
  match x with
  | S754_nan => js "NaN"
  | S754_zero _ => js "0"
  | S754_infinity false => js "Infinity"
  | S754_infinity true => js "-Infinity"
  | S754_finite sg m e =>
      let '(s, k, n) := shortest m e in
      (if sg then js "-" else []) ++ render s k n
  end.

End NumberToString.
Export NumberToString.

(** ** String operations used by the service *)

(** The characters matched by [\s] in a regular expression, which are also
    the ones removed by [String.prototype.trim]: white space and line
    terminators. *)
Definition is_space (c : N) : bool :=
  (existsb (N.eqb c)
     [9; 10; 11; 12; 13; 32; 160; 5760; 8232; 8233; 8239; 8287; 12288; 65279]
   || ((8192 <=? c) && (c <=? 8202)))%N.

(** The characters of the class [[.!?]]. *)
Definition is_terminal (c : N) : bool :=
  ((c =? 46) || (c =? 33) || (c =? 63))%N.

(** [s.split(/[class]+/)]: the pieces of [s] between the maximal runs of
    characters of the class.  A run at the start or at the end of [s]
    leaves an empty piece there, and the empty string splits into one empty
    piece.  [in_run] tells that the previous character was in the class. *)
Fixpoint split_from (class : N -> bool) (in_run : bool) (s : jsstring)
  : list jsstring :=
  match s with
  | [] => [[]]
  | c :: s' =>
      if class c then
        if in_run then split_from class true s'
        else [] :: split_from class true s'
      else
        match split_from class false s' with
        | piece :: pieces => (c :: piece) :: pieces
        | [] => [[c]]
        end
  end.

Definition split (class : N -> bool) (s : jsstring) : list jsstring :=
  split_from class false s.

Fixpoint trimStart (s : jsstring) : jsstring :=
  match s with
  | c :: s' => if is_space c then trimStart s' else s
  | [] => []
  end.

Definition trimEnd (s : jsstring) : jsstring := rev (trimStart (rev s)).

Definition trim (s : jsstring) : jsstring := trimEnd (trimStart s).

(** [s.padStart(len, fill)] for a one-character [fill]. *)
Definition padStart (s : jsstring) (len : nat) (fill : N) : jsstring :=
  replicate (len - length s) fill ++ s.

(** [a === b] on strings. *)
Definition str_eqb (a b : jsstring) : bool := bool_decide (a = b).

(** [arr.forEach((x, index) => ...)] with the variables the callback
    assigns to threaded as a state. *)
Fixpoint forEach {A S : Type} (body : S -> A -> nat -> S)
    (arr : list A) (index : nat) (st : S) : S :=
  match arr with
  | [] => st
  | x :: arr' => forEach body arr' (Datatypes.S index) (body st x index)
  end.

(** ** The cue timer: [createSmartSubtitles] *)

Definition wordsPerMinute : number := of_Z 180.

(** [scriptText.split(/[.!?]+/).map(s => s.trim()).filter(s => s.length > 0)] *)
Definition sentences_of (scriptText : jsstring) : list jsstring :=
  List.filter (fun s => (0 <? length s)%nat)
    (map trim (split is_terminal scriptText)).

(** [s.split(/\s+/).length] *)
Definition word_count (s : jsstring) : nat := length (split is_space s).

(** [(words / wordsPerMinute) * 60 * 1.2] *)
Definition sentenceDuration (words : nat) : number :=
  mul (mul (div (of_nat words) wordsPerMinute) (of_Z 60)) (lit 12 10).

Definition formatTime (format : jsstring) (seconds : number) : jsstring :=
  let hours := Math_floor (div seconds (of_Z 3600)) in
  let minutes := Math_floor (div (rem seconds (of_Z 3600)) (of_Z 60)) in
  let secs := Math_floor (rem seconds (of_Z 60)) in
  let milliseconds := Math_floor (mul (rem seconds (of_Z 1)) (of_Z 1000)) in
  if str_eqb format (js "srt") then
    padStart (toString hours) 2 48 ++ js ":" ++
    padStart (toString minutes) 2 48 ++ js ":" ++
    padStart (toString secs) 2 48 ++ js "," ++
    padStart (toString milliseconds) 3 48
  else
    padStart (toString hours) 2 48 ++ js ":" ++
    padStart (toString minutes) 2 48 ++ js ":" ++
    padStart (toString secs) 2 48 ++ js "." ++
    padStart (toString milliseconds) 3 48.

(** The two variables the loop body assigns to. *)
Record loop_state := { currentTime : number; subtitles : jsstring }.

Definition loop_body (format : jsstring) (videoDuration : number)
    (st : loop_state) (sentence : jsstring) (index : nat) : loop_state :=
  let words := word_count sentence in
  let endTime :=
    Math_min (add (currentTime st) (sentenceDuration words)) videoDuration in
  let subtitles1 :=
    if str_eqb format (js "srt")
    then subtitles st ++ toString (add (of_nat index) (of_Z 1)) ++ nl
    else subtitles st in
  let subtitles2 :=
    subtitles1 ++ formatTime format (currentTime st) ++ js " --> " ++
    formatTime format endTime ++ nl in
  let subtitles3 := subtitles2 ++ trim sentence ++ nl ++ nl in
  {| currentTime := add endTime (lit 5 10); subtitles := subtitles3 |}.

(** The reading-time estimate the function computes before the loop; the
    loop does not use it. *)
Definition effectiveDuration (scriptText : jsstring) (videoDuration : number)
  : number :=
  let totalWords := word_count scriptText in
  let estimatedReadingTime :=
    mul (div (of_nat totalWords) wordsPerMinute) (of_Z 60) in
  Math_min videoDuration (mul estimatedReadingTime (lit 12 10)).

Definition createSmartSubtitles (scriptText : jsstring)
    (videoDuration : number) (format : jsstring) : jsstring :=
  let sentences := sentences_of scriptText in
  if (length sentences =? 0)%nat then
    if str_eqb format (js "srt") then [] else js "WEBVTT" ++ nl ++ nl
  else
    let header :=
      if str_eqb format (js "vtt") then js "WEBVTT" ++ nl ++ nl else [] in
    subtitles
      (forEach (loop_body format videoDuration) sentences 0%nat
         {| currentTime := of_Z 0; subtitles := header |}).

(** The caption cues the loop emits: for each sentence the value of
    [currentTime] when its turn comes, the [endTime] computed for it, and
    the text written under the time line. *)
Record cue := { cue_start : number; cue_end : number; cue_text : jsstring }.

Fixpoint cues_from (videoDuration : number) (currentTime : number)
    (sentences : list jsstring) : list cue :=
  match sentences with
  | [] => []
  | sentence :: rest =>
      let endTime :=
        Math_min (add currentTime (sentenceDuration (word_count sentence)))
                 videoDuration in
      {| cue_start := currentTime; cue_end := endTime;
         cue_text := trim sentence |}
      :: cues_from videoDuration (add endTime (lit 5 10)) rest
  end.

Definition cues (scriptText : jsstring) (videoDuration : number) : list cue :=
  cues_from videoDuration (of_Z 0) (sentences_of scriptText).

(** ** The file system, the transcoding engine and the console

    The service reads and writes files, runs ffmpeg and logs its progress.
    A world holds the regular files with their contents, the directories,
    and the trace of what happened: the console lines that mark a step of
    the control flow, and the engine runs. *)

Abbreviation path := jsstring.

Inductive job :=
  | Probe (video : path)
  | Burn (video subtitle output : path)
  | Attach (video subtitle output : path) (language : jsstring).

(** How an engine run ends: the [end] event, the [error] event, or neither of
    them before the timer set next to the run fires. *)
Inductive outcome := Ended | Crashed (message : jsstring) | Hung.

Inductive event :=
  | BurnStarted          (* BURN DEBUG: Starting SIMPLIFIED burnSubtitlesIntoVideo *)
  | SoftStarted          (* SOFT DEBUG: Starting addSoftSubtitles *)
  | TryingSoftInstead    (* SUBTITLE FALLBACK: Trying soft subtitles instead... *)
  | BothMethodsFailed    (* SUBTITLE ERROR: Both hard and soft subtitle methods failed *)
  | OriginalVideoCopied  (* SUBTITLE (FINAL) FALLBACK: Original video copied *)
  | EngineRun (j : job).

Record filesystem := {
  files : gmap path (list N);
  dirs : gset path
}.

Record world := { fs : filesystem; trace : list event }.

Inductive error :=
  | VideoFileNotFound (p : path)       (* Video file not found: p *)
  | SubtitleFileNotFound (p : path)    (* Subtitle file not found: p *)
  | BasicFFmpegTestFailed              (* Basic FFmpeg test failed: ... *)
  | OutputFileNotCreated               (* Output file was not created *)
  | SubtitleBurningTimeout             (* Subtitle burning timeout after 10 minutes *)
  | SoftSubtitleTimeout                (* Soft subtitle addition timeout after 5 minutes *)
  | EngineError (message : jsstring)   (* the error ffmpeg reported *)
  | ENOENT (p : path)                  (* no such file or directory *)
  | EISDIR (p : path).                 (* illegal operation on a directory *)

(** What lies outside the repository: Node's [path] module and ffmpeg.  A run
    of the engine may change the file system in any way. *)
Record environment := {
  path_join : path -> path -> path;
  path_dirname : path -> path;
  ffmpeg : job -> filesystem -> outcome * filesystem
}.

(** Computations that change the world and either return or throw. *)
Definition M (A : Type) : Type := world -> world * (error + A).

Definition ret {A} (a : A) : M A := fun w => (w, inr a).
Definition throw {A} (e : error) : M A := fun w => (w, inl e).
Definition bind {A B} (c : M A) (k : A -> M B) : M B :=
  fun w => match c w with
           | (w', inr a) => k a w'
           | (w', inl e) => (w', inl e)
           end.
Definition try_catch {A} (c : M A) (handler : error -> M A) : M A :=
  fun w => match c w with
           | (w', inr a) => (w', inr a)
           | (w', inl e) => handler e w'
           end.

Notation "'let*' x ':=' c 'in' k" := (bind c (fun x => k))
  (at level 10, x name, c at level 100, k at level 200).
Notation "'do' c 'then' k" := (bind c (fun _ => k))
  (at level 10, c at level 100, k at level 200).

Definition emit (ev : event) : M unit :=
  fun w => ({| fs := fs w; trace := trace w ++ [ev] |}, inr tt).

Definition exists_in (f : filesystem) (p : path) : bool :=
  bool_decide (is_Some (files f !! p)) || bool_decide (p ∈ dirs f).

Definition existsSync (p : path) : M bool :=
  fun w => (w, inr (exists_in (fs w) p)).

Definition mkdirSync (p : path) : M unit :=
  fun w => ({| fs := {| files := files (fs w); dirs := dirs (fs w) ∪ {[p]} |};
               trace := trace w |}, inr tt).

Definition write_in (f : filesystem) (p : path) (content : list N)
  : filesystem :=
  {| files := <[p := content]> (files f); dirs := dirs f |}.

(** [fs.writeFile]: the whole content replaces what was there; writing to a
    directory fails. *)
Definition writeFile (p : path) (content : list N) : M unit :=
  fun w =>
    if bool_decide (p ∈ dirs (fs w)) then (w, inl (EISDIR p))
    else ({| fs := write_in (fs w) p content; trace := trace w |}, inr tt).

(** [fs.copyFileSync]: the source must be a file, the target not a
    directory. *)
Definition copyFileSync (src dst : path) : M unit :=
  fun w =>
    match files (fs w) !! src with
    | None => (w, inl (ENOENT src))
    | Some content =>
        if bool_decide (dst ∈ dirs (fs w)) then (w, inl (EISDIR dst))
        else ({| fs := write_in (fs w) dst content; trace := trace w |}, inr tt)
    end.

Definition run (env : environment) (j : job) : M outcome :=
  fun w =>
    let '(o, f) := ffmpeg env j (fs w) in
    ({| fs := f; trace := trace w ++ [EngineRun j] |}, inr o).

(** ** [saveSubtitleFile] *)
Definition saveSubtitleFile (env : environment) (subtitleContent : jsstring)
    (outputPath : path) : M path :=
  let outputDir := path_dirname env outputPath in
  let* present := existsSync outputDir in
  do (if negb present then mkdirSync outputDir else ret tt) then
  do writeFile outputPath subtitleContent then
  ret outputPath.

(** [subtitlePath.replace(/\\/g, '/')] *)
Definition slashes (p : path) : path :=
  map (fun c => if (c =? 92)%N then 47%N else c) p.

(** ** [burnSubtitlesIntoVideo]

    The [options] argument is not used by the function.  The debug read of
    the subtitle file changes nothing and is left out. *)
Definition burnSubtitlesIntoVideo (env : environment)
    (videoPath subtitlePath outputPath : path) : M path :=
  do emit BurnStarted then
  let* video_present := existsSync videoPath in
  if negb video_present then throw (VideoFileNotFound videoPath) else
  let* subtitle_present := existsSync subtitlePath in
  if negb subtitle_present then throw (SubtitleFileNotFound subtitlePath) else
  let* test := run env (Probe videoPath) in
  match test with
  | Crashed _ | Hung => throw BasicFFmpegTestFailed
  | Ended =>
      (* startSubtitleBurn *)
      let outputDir := path_dirname env outputPath in
      let* present := existsSync outputDir in
      do (if negb present then mkdirSync outputDir else ret tt) then
      let* o := run env (Burn videoPath (slashes subtitlePath) outputPath) in
      match o with
      | Hung => throw SubtitleBurningTimeout
      | Crashed message => throw (EngineError message)
      | Ended =>
          let* created := existsSync outputPath in
          if created then ret outputPath else throw OutputFileNotCreated
      end
  end.

(** ** [addSoftSubtitles] *)
Definition addSoftSubtitles (env : environment)
    (videoPath subtitlePath outputPath : path) (language : jsstring) : M path :=
  do emit SoftStarted then
  let* video_present := existsSync videoPath in
  if negb video_present then throw (VideoFileNotFound videoPath) else
  let* subtitle_present := existsSync subtitlePath in
  if negb subtitle_present then throw (SubtitleFileNotFound subtitlePath) else
  let outputDir := path_dirname env outputPath in
  let* present := existsSync outputDir in
  do (if negb present then mkdirSync outputDir else ret tt) then
  let* o := run env (Attach videoPath subtitlePath outputPath language) in
  match o with
  | Hung => throw SoftSubtitleTimeout
  | Crashed message => throw (EngineError message)
  | Ended =>
      let* created := existsSync outputPath in
      if created then ret outputPath else throw OutputFileNotCreated
  end.

(** ** [processSubtitles] *)

(** The values stored in the result object. *)
Inductive jsval := VString (s : jsstring) | VBool (b : bool).

(** The [options] argument; a field left out is [None] and takes the
    default of the destructuring pattern. *)
Record options := {
  opt_format : option jsstring;         (* default 'srt' *)
  opt_addToVideo : option bool;         (* default false *)
  opt_videoPath : option path;          (* default null *)
  opt_subtitleType : option jsstring    (* default 'hard' *)
}.

(** A path in a condition: null and the empty string are falsy. *)
Definition truthy (p : option path) : option path :=
  match p with
  | Some [] | None => None
  | Some q => Some q
  end.

Definition with_video (result : gmap string jsval) (outputVideoPath : path)
  : gmap string jsval :=
  <["videoWithSubtitles" := VString outputVideoPath]> result.

(** The branch of soft subtitles (lines 445-457). *)
Definition soft_branch (env : environment)
    (videoPath subtitlePath outputVideoPath : path)
    (result : gmap string jsval) : M (gmap string jsval) :=
  try_catch
    (do addSoftSubtitles env videoPath subtitlePath outputVideoPath (js "en") then
     ret (with_video result outputVideoPath))
    (fun _ =>
       do copyFileSync videoPath outputVideoPath then
       do emit OriginalVideoCopied then
       ret (with_video result outputVideoPath)).

(** The branch of hard subtitles (lines 458-482). *)
Definition hard_branch (env : environment)
    (videoPath subtitlePath outputVideoPath : path)
    (result : gmap string jsval) : M (gmap string jsval) :=
  try_catch
    (do burnSubtitlesIntoVideo env videoPath subtitlePath outputVideoPath then
     ret (with_video result outputVideoPath))
    (fun _ =>
       do emit TryingSoftInstead then
       try_catch
         (do addSoftSubtitles env videoPath subtitlePath outputVideoPath (js "en") then
          ret (with_video result outputVideoPath))
         (fun _ =>
            do emit BothMethodsFailed then
            do copyFileSync videoPath outputVideoPath then
            do emit OriginalVideoCopied then
            ret (with_video result outputVideoPath))).

Definition base_result (subtitlePath : path) (subtitleContent format : jsstring)
  : gmap string jsval :=
  <["subtitlePath" := VString subtitlePath]>
    (<["subtitleContent" := VString subtitleContent]>
       (<["format" := VString format]> ∅)).

Definition processSubtitles (env : environment) (scriptText : jsstring)
    (videoDuration : number) (outputDir : path) (videoId : jsstring)
    (opts : options) : M (gmap string jsval) :=
  let format := default (js "srt") (opt_format opts) in
  let addToVideo := default false (opt_addToVideo opts) in
  let subtitleType := default (js "hard") (opt_subtitleType opts) in
  let subtitleContent := createSmartSubtitles scriptText videoDuration format in
  let subtitleFileName := videoId ++ js "_subtitles." ++ format in
  let subtitlePath := path_join env outputDir subtitleFileName in
  do saveSubtitleFile env subtitleContent subtitlePath then
  let result := base_result subtitlePath subtitleContent format in
  match addToVideo, truthy (opt_videoPath opts) with
  | true, Some videoPath =>
      let outputVideoPath :=
        path_join env outputDir (videoId ++ js "_with_subtitles.mp4") in
      if str_eqb subtitleType (js "soft")
      then soft_branch env videoPath subtitlePath outputVideoPath result
      else hard_branch env videoPath subtitlePath outputVideoPath result
  | _, _ => ret result
  end.

(** ** Serialization of a cue sequence

    What the loop appends for one cue, and for a sequence of cues numbered
    from [index]. *)
Definition block (format : jsstring) (index : nat) (c : cue) : jsstring :=
  (if str_eqb format (js "srt")
   then toString (add (of_nat index) (of_Z 1)) ++ nl else []) ++
  formatTime format (cue_start c) ++ js " --> " ++
  formatTime format (cue_end c) ++ nl ++
  cue_text c ++ nl ++ nl.

Fixpoint blocks (format : jsstring) (index : nat) (cs : list cue) : jsstring :=
  match cs with
  | [] => []
  | c :: cs' => block format index c ++ blocks format (S index) cs'
  end.

(** The whole output for a cue sequence. *)
Definition render_cues (format : jsstring) (cs : list cue) : jsstring :=
  match cs with
  | [] => if str_eqb format (js "srt") then [] else js "WEBVTT" ++ nl ++ nl
  | _ =>
      (if str_eqb format (js "vtt") then js "WEBVTT" ++ nl ++ nl else []) ++
      blocks format 0 cs
  end.

(** The two formats as the specification words them: [HH:MM:SS] and the
    milliseconds after a separator; three lines and a blank line per cue
    for SRT, a header and two lines and a blank line per cue for VTT. *)
Definition timestamp (sep : jsstring) (seconds : number) : jsstring :=
  padStart (toString (Math_floor (div seconds (of_Z 3600)))) 2 48 ++ js ":" ++
  padStart (toString (Math_floor (div (rem seconds (of_Z 3600)) (of_Z 60)))) 2 48 ++
  js ":" ++
  padStart (toString (Math_floor (rem seconds (of_Z 60)))) 2 48 ++ sep ++
  padStart (toString (Math_floor (mul (rem seconds (of_Z 1)) (of_Z 1000)))) 3 48.

Definition time_line (sep : jsstring) (c : cue) : jsstring :=
  timestamp sep (cue_start c) ++ js " --> " ++ timestamp sep (cue_end c).

Definition index_line (index : nat) : jsstring :=
  toString (add (of_nat index) (of_Z 1)).

Definition srt_block (index : nat) (c : cue) : jsstring :=
  index_line index ++ nl ++ time_line (js ",") c ++ nl ++ cue_text c ++ nl ++ nl.

Definition vtt_block (c : cue) : jsstring :=
  time_line (js ".") c ++ nl ++ cue_text c ++ nl ++ nl.

Definition serialize_srt (cs : list cue) : jsstring :=
  concat (imap srt_block cs).

Definition serialize_vtt (cs : list cue) : jsstring :=
  js "WEBVTT" ++ nl ++ nl ++ concat (map vtt_block cs).

(** The times of a cue, and a cue sequence from times and texts. *)
Definition cue_times (c : cue) : number * number := (cue_start c, cue_end c).

Definition with_texts (times : list (number * number)) (texts : list jsstring)
  : list cue :=
  zip_with (fun t text => {| cue_start := t.1; cue_end := t.2; cue_text := text |})
    times texts.


(** ** Muxing in hard mode: the statements under test and sample worlds *)

(** The world after an event is logged. *)
Definition logged (ev : event) (w : world) : world :=
  {| fs := fs w; trace := trace w ++ [ev] |}.

(** The last resort of the hard branch: log, copy, log, return. *)
Definition final_fallback (videoPath outputVideoPath : path)
    (result : gmap string jsval) : M (gmap string jsval) :=
  do emit BothMethodsFailed then
  do copyFileSync videoPath outputVideoPath then
  do emit OriginalVideoCopied then
  ret (with_video result outputVideoPath).

Definition is_attach (j : job) : bool :=
  match j with Attach _ _ _ _ => true | _ => false end.

(** No event of [evs] is a run of the engine on a job of the kind. *)
Definition never_runs (kind : job -> bool) (evs : list event) : Prop :=
  Forall (fun ev => match ev with
                    | EngineRun j => kind j = false
                    | _ => True
                    end) evs.

(** An invocation of [processSubtitles] that reaches the hard branch. *)
Definition hard_mode (opts : options) (videoPath : path) : Prop :=
  opt_addToVideo opts = Some true /\
  truthy (opt_videoPath opts) = Some videoPath /\
  str_eqb (default (js "hard") (opt_subtitleType opts)) (js "soft") = false.

Definition subtitlePath_of (env : environment) (outputDir : path)
    (videoId : jsstring) (opts : options) : path :=
  path_join env outputDir
    (videoId ++ js "_subtitles." ++ default (js "srt") (opt_format opts)).

Definition outputVideoPath_of (env : environment) (outputDir : path)
    (videoId : jsstring) : path :=
  path_join env outputDir (videoId ++ js "_with_subtitles.mp4").

Definition result_of (env : environment) (scriptText : jsstring)
    (videoDuration : number) (outputDir : path) (videoId : jsstring)
    (opts : options) : gmap string jsval :=
  let format := default (js "srt") (opt_format opts) in
  base_result (subtitlePath_of env outputDir videoId opts)
    (createSmartSubtitles scriptText videoDuration format) format.

(** C1 as the specification states it: after both rendering attempts have
    failed the video is copied to the output path and the result carries
    [degraded: true]. *)
Definition degraded_flag_reported : Prop :=
  forall env scriptText videoDuration outputDir videoId opts videoPath
         w w0 w1 e1 w2 e2,
    hard_mode opts videoPath ->
    let subtitlePath := subtitlePath_of env outputDir videoId opts in
    let outputVideoPath := outputVideoPath_of env outputDir videoId in
    saveSubtitleFile env
      (createSmartSubtitles scriptText videoDuration
         (default (js "srt") (opt_format opts))) subtitlePath w
      = (w0, inr subtitlePath) ->
    burnSubtitlesIntoVideo env videoPath subtitlePath outputVideoPath w0
      = (w1, inl e1) ->
    addSoftSubtitles env videoPath subtitlePath outputVideoPath (js "en")
      (logged TryingSoftInstead w1) = (w2, inl e2) ->
    exists w3 result,
      processSubtitles env scriptText videoDuration outputDir videoId opts w
        = (w3, inr result) /\
      files (fs w3) !! outputVideoPath = files (fs w2) !! videoPath /\
      result !! "degraded" = Some (VBool true).

(** C8 as the specification states it, for the hard branch: with an input
    missing the invocation fails with the error of the check, and no other
    strategy is started after the first. *)
Definition missing_input_fails_without_retry : Prop :=
  forall env videoPath subtitlePath outputVideoPath result w,
    exists_in (fs w) videoPath = false \/
    exists_in (fs w) subtitlePath = false ->
    exists w' e,
      hard_branch env videoPath subtitlePath outputVideoPath result w
        = (w', inl e) /\
      (e = VideoFileNotFound videoPath \/
       e = SubtitleFileNotFound subtitlePath) /\
      trace w' = trace w ++ [BurnStarted].

(** The rejection of the existence checks both strategies start with. *)
Definition missing_input_error (f : filesystem) (videoPath subtitlePath : path)
  : error :=
  if exists_in f videoPath then SubtitleFileNotFound subtitlePath
  else VideoFileNotFound videoPath.

(** Sample surroundings: paths joined with a slash, every path in the
    directory [out], and an engine that passes its probe, cannot burn, and
    on request attaches a track or crashes. *)
Definition sample_env (attach_works : bool) : environment :=
  {| path_join := fun dir name => dir ++ js "/" ++ name;
     path_dirname := fun _ => js "out";
     ffmpeg := fun j f =>
       match j with
       | Probe _ => (Ended, f)
       | Burn _ _ _ => (Crashed (js "No such filter: 'subtitles'"), f)
       | Attach video _ output _ =>
           if attach_works
           then (Ended, write_in f output (default [] (files f !! video)))
           else (Crashed (js "Conversion failed!"), f)
       end |}.

Definition sample_video : path := js "uploads/clip.mp4".

Definition sample_world : world :=
  {| fs := {| files := {[ sample_video := [0; 0; 0; 24; 102]%N ]};
              dirs := {[ js "uploads" ]} |};
     trace := [] |}.

Definition empty_world : world :=
  {| fs := {| files := ∅; dirs := ∅ |}; trace := [] |}.

Definition sample_opts : options :=
  {| opt_format := None; opt_addToVideo := Some true;
     opt_videoPath := Some sample_video; opt_subtitleType := None |}.
(** * Properties of the cue timer *)

Lemma forEach_cues format videoDuration sentences index st :
  forEach (loop_body format videoDuration) sentences index st =
  {| currentTime :=
       currentTime (forEach (loop_body format videoDuration) sentences index st);
     subtitles :=
       subtitles st ++
       blocks format index (cues_from videoDuration (currentTime st) sentences) |}.
Proof.
  revert index st. induction sentences as [|s rest IH]; intros index st.
  - destruct st; cbn. by rewrite app_nil_r.
  - cbn [forEach cues_from blocks]. rewrite IH. f_equal.
    unfold loop_body, block.
    cbn [currentTime subtitles cue_start cue_end cue_text].
    destruct (str_eqb format (js "srt")); by rewrite <- ?app_assoc.
Qed.

Lemma cues_from_length videoDuration t sentences :
  length (cues_from videoDuration t sentences) = length sentences.
Proof.
  revert t. induction sentences as [|s rest IH]; intros t; cbn; [done|].
  by rewrite IH.
Qed.

Lemma createSmartSubtitles_render scriptText videoDuration format :
  createSmartSubtitles scriptText videoDuration format =
  render_cues format (cues scriptText videoDuration).
Proof.
  unfold createSmartSubtitles, cues.
  destruct (sentences_of scriptText) as [|s rest] eqn:Hs; [done|].
  cbn [length Nat.eqb]. rewrite forEach_cues. cbn [subtitles currentTime].
  remember (s :: rest) as ss. unfold render_cues.
  destruct (cues_from videoDuration (of_Z 0) ss) eqn:Hc; [|done].
  apply (f_equal length) in Hc. rewrite cues_from_length in Hc. by subst ss.
Qed.

Lemma formatTime_srt seconds :
  formatTime (js "srt") seconds = timestamp (js ",") seconds.
Proof. reflexivity. Qed.

Lemma formatTime_vtt seconds :
  formatTime (js "vtt") seconds = timestamp (js ".") seconds.
Proof. reflexivity. Qed.

Lemma blocks_srt index cs :
  blocks (js "srt") index cs = concat (imap (fun i => srt_block (index + i)) cs).
Proof.
  revert index. induction cs as [|c cs IH]; intros index; [done|].
  cbn [blocks imap concat]. rewrite IH. f_equal.
  - unfold block, srt_block, index_line, time_line.
    rewrite !formatTime_srt, Nat.add_0_r.
    change (str_eqb (js "srt") (js "srt")) with true. cbv iota.
    by rewrite <- !app_assoc.
  - f_equal. apply imap_ext. intros i x _. cbn. f_equal. lia.
Qed.

Lemma blocks_vtt index cs :
  blocks (js "vtt") index cs = concat (map vtt_block cs).
Proof.
  revert index. induction cs as [|c cs IH]; intros index; [done|].
  cbn [blocks map concat]. rewrite IH. f_equal.
  unfold block, vtt_block, time_line. rewrite !formatTime_vtt.
  change (str_eqb (js "vtt") (js "srt")) with false. cbv iota.
  by rewrite <- !app_assoc.
Qed.

(** C9: the SRT and the VTT output are serializations of one and the same
    cue sequence, the one the loop emits: SRT is, per cue, the index line,
    the time line with a comma before the milliseconds, the text and a blank
    line; VTT is the header [WEBVTT] and a blank line and then, per cue, the
    time line with a dot, the text and a blank line. *)
Theorem srt_vtt_same_cues scriptText videoDuration :
  createSmartSubtitles scriptText videoDuration (js "srt") =
    serialize_srt (cues scriptText videoDuration) /\
  createSmartSubtitles scriptText videoDuration (js "vtt") =
    serialize_vtt (cues scriptText videoDuration).
Proof.
  rewrite !createSmartSubtitles_render. unfold serialize_srt, serialize_vtt.
  destruct (cues scriptText videoDuration) as [|c cs] eqn:Hc.
  - split; reflexivity.
  - unfold render_cues. rewrite blocks_srt, blocks_vtt. split; reflexivity.
Qed.

Lemma cues_from_times videoDuration t ss1 ss2 :
  map word_count ss1 = map word_count ss2 ->
  map cue_times (cues_from videoDuration t ss1) =
  map cue_times (cues_from videoDuration t ss2).
Proof.
  revert t ss2. induction ss1 as [|s1 ss1 IH]; intros t [|s2 ss2] Hw;
    try discriminate; [done|].
  injection Hw as Hw1 Hw. cbn [cues_from map]. rewrite Hw1.
  f_equal. by apply IH.
Qed.

Lemma cues_from_with_texts videoDuration t ss :
  cues_from videoDuration t ss =
  with_texts (map cue_times (cues_from videoDuration t ss)) (map trim ss).
Proof.
  revert t. induction ss as [|s ss IH]; intros t; [done|].
  cbn [cues_from map]. unfold with_texts. cbn [zip_with]. f_equal. apply IH.
Qed.

(** C10: the times of the cues depend on the sentences through their word
    counts only.  Two scripts whose sentences have, position by position,
    the same number of words get the same sequence of (start, end) for the
    same duration, and each output is that one sequence of times rendered
    with the script's own texts. *)
Theorem timing_depends_on_word_counts_only text1 text2 videoDuration format :
  map word_count (sentences_of text1) = map word_count (sentences_of text2) ->
  let times := map cue_times (cues text1 videoDuration) in
  map cue_times (cues text2 videoDuration) = times /\
  createSmartSubtitles text1 videoDuration format =
    render_cues format (with_texts times (map trim (sentences_of text1))) /\
  createSmartSubtitles text2 videoDuration format =
    render_cues format (with_texts times (map trim (sentences_of text2))).
Proof.
  intros Hw times. subst times. unfold cues.
  rewrite (cues_from_times _ _ _ _ Hw). split; [done|].
  rewrite !createSmartSubtitles_render. unfold cues. split.
  - rewrite <- (cues_from_times _ _ _ _ Hw). by rewrite <- cues_from_with_texts.
  - by rewrite <- cues_from_with_texts.
Qed.

Lemma timing_depends_on_word_counts_only_witness :
  map word_count (sentences_of (js "He runs. He jumps!")) =
  map word_count (sentences_of (js "We  sat?! You left.")) /\
  map cue_times (cues (js "We  sat?! You left.") (of_Z 10)) =
  map cue_times (cues (js "He runs. He jumps!") (of_Z 10)).
Proof.
  split; [vm_compute; reflexivity|].
  apply (timing_depends_on_word_counts_only
           (js "He runs. He jumps!") (js "We  sat?! You left.") (of_Z 10) (js "srt")).
  vm_compute; reflexivity.
Defined.

Lemma filter_all_empty (l : list jsstring) :
  Forall (fun s => s = []) l ->
  List.filter (fun s => (0 <? length s)%nat) l = [].
Proof.
  induction 1 as [|s l Hs _ IH]; [done|]. subst s. cbn. exact IH.
Qed.

(** C6: a script none of whose pieces between runs of [.], [!], [?] has
    anything left after trimming gives the empty string for 'srt' and the
    bare header for 'vtt'. *)
Theorem empty_script_outputs scriptText videoDuration :
  Forall (fun piece => trim piece = []) (split is_terminal scriptText) ->
  createSmartSubtitles scriptText videoDuration (js "srt") = [] /\
  createSmartSubtitles scriptText videoDuration (js "vtt") = js "WEBVTT" ++ nl ++ nl.
Proof.
  intros H. unfold createSmartSubtitles, sentences_of.
  rewrite filter_all_empty; [split; reflexivity|].
  by apply Forall_map.
Qed.

Lemma empty_script_outputs_witness :
  createSmartSubtitles (js " ..! ?") (of_Z 10) (js "srt") = [] /\
  createSmartSubtitles (js " ..! ?") (of_Z 10) (js "vtt") = js "WEBVTT" ++ nl ++ nl.
Proof.
  apply empty_script_outputs. vm_compute.
  repeat constructor.
Defined.

(** C2: the example script at duration 10.  Three sentences of 2, 2 and 4
    words last 0.8, 0.8 and 1.6 seconds at 180 words per minute with the
    20% buffer; with the gap of 0.5 seconds the cues are (0, 0.8),
    (1.3, 2.1) and (2.6, 4.2), each time the double that the decimal
    literal denotes, and the SRT text shows them to the millisecond. *)
Theorem example_three_cues :
  let script := js "He runs. He jumps! Will he make it?" in
  map word_count (sentences_of script) = [2; 2; 4]%nat /\
  map sentenceDuration [2; 2; 4]%nat = [lit 8 10; lit 8 10; lit 16 10] /\
  cues script (of_Z 10) =
    [ {| cue_start := of_Z 0;    cue_end := lit 8 10;  cue_text := js "He runs" |};
      {| cue_start := lit 13 10; cue_end := lit 21 10; cue_text := js "He jumps" |};
      {| cue_start := lit 26 10; cue_end := lit 42 10;
         cue_text := js "Will he make it" |} ] /\
  createSmartSubtitles script (of_Z 10) (js "srt") =
    js "1" ++ nl ++ js "00:00:00,000 --> 00:00:00,800" ++ nl ++
    js "He runs" ++ nl ++ nl ++
    js "2" ++ nl ++ js "00:00:01,300 --> 00:00:02,100" ++ nl ++
    js "He jumps" ++ nl ++ nl ++
    js "3" ++ nl ++ js "00:00:02,600 --> 00:00:04,200" ++ nl ++
    js "Will he make it" ++ nl ++ nl.
Proof. vm_compute. repeat split; reflexivity. Qed.

(** * Properties of the muxing *)

Lemma processSubtitles_hard env scriptText videoDuration outputDir videoId
    opts videoPath w :
  hard_mode opts videoPath ->
  processSubtitles env scriptText videoDuration outputDir videoId opts w =
  bind (saveSubtitleFile env
          (createSmartSubtitles scriptText videoDuration
             (default (js "srt") (opt_format opts)))
          (subtitlePath_of env outputDir videoId opts))
       (fun _ =>
          hard_branch env videoPath (subtitlePath_of env outputDir videoId opts)
            (outputVideoPath_of env outputDir videoId)
            (result_of env scriptText videoDuration outputDir videoId opts)) w.
Proof.
  intros (Hadd & Hvideo & Hhard). unfold processSubtitles.
  rewrite Hadd, Hvideo, Hhard. reflexivity.
Qed.

Lemma hard_branch_unfold env videoPath subtitlePath out result w :
  hard_branch env videoPath subtitlePath out result w =
  match burnSubtitlesIntoVideo env videoPath subtitlePath out w with
  | (w1, inr _) => (w1, inr (with_video result out))
  | (w1, inl _) =>
      match addSoftSubtitles env videoPath subtitlePath out (js "en")
              (logged TryingSoftInstead w1) with
      | (w2, inr _) => (w2, inr (with_video result out))
      | (w2, inl _) => final_fallback videoPath out result w2
      end
  end.
Proof.
  unfold hard_branch, try_catch, bind at 1, ret.
  destruct (burnSubtitlesIntoVideo env videoPath subtitlePath out w)
    as [w1 [e1|p1]]; [|reflexivity].
  unfold bind at 1, emit at 1. unfold bind at 1, ret.
  change {| fs := fs w1; trace := trace w1 ++ [TryingSoftInstead] |}
    with (logged TryingSoftInstead w1).
  destruct (addSoftSubtitles env videoPath subtitlePath out (js "en")
              (logged TryingSoftInstead w1)) as [w2 [e2|p2]]; reflexivity.
Qed.

Lemma with_video_lookup result out :
  with_video result out !! "videoWithSubtitles" = Some (VString out).
Proof. unfold with_video. by rewrite lookup_insert_eq. Qed.

Lemma base_result_no_flag subtitlePath content format out :
  with_video (base_result subtitlePath content format) out !! "degraded" = None.
Proof.
  unfold with_video, base_result.
  rewrite !lookup_insert_ne by discriminate. apply lookup_empty.
Qed.

(** The runs of the engine inside [burnSubtitlesIntoVideo] are its probe
    and its burn. *)
Lemma burn_trace env videoPath subtitlePath out w :
  exists evs,
    trace (burnSubtitlesIntoVideo env videoPath subtitlePath out w).1 =
      trace w ++ BurnStarted :: evs /\
    never_runs is_attach evs.
Proof.
  unfold burnSubtitlesIntoVideo, bind, emit, existsSync, run, throw, ret,
    mkdirSync, never_runs.
  cbn [fs trace].
  repeat (case_match; cbn [fs trace fst negb] in *; simplify_eq);
    rewrite <- ?app_assoc; cbn [app];
    eexists; (split; [reflexivity|]); repeat constructor.
Qed.

(** C7: in hard mode the strategies are tried in a fixed order and the first
    success ends the invocation.  If the burn succeeds the invocation ends
    in the world the burn left, in which the engine never ran an attach job;
    if the burn fails and attaching the track succeeds it ends in the world
    the attach left - nothing is copied - and the result has
    [videoWithSubtitles] set to the output path and no [degraded] field;
    only if both fail is the source video copied. *)
Theorem hard_mode_fallback_order env scriptText videoDuration outputDir
    videoId opts videoPath w w0 :
  hard_mode opts videoPath ->
  let subtitlePath := subtitlePath_of env outputDir videoId opts in
  let out := outputVideoPath_of env outputDir videoId in
  let result := result_of env scriptText videoDuration outputDir videoId opts in
  saveSubtitleFile env
    (createSmartSubtitles scriptText videoDuration
       (default (js "srt") (opt_format opts))) subtitlePath w
    = (w0, inr subtitlePath) ->
  let invocation :=
    processSubtitles env scriptText videoDuration outputDir videoId opts w in
  match burnSubtitlesIntoVideo env videoPath subtitlePath out w0 with
  | (w1, inr _) =>
      invocation = (w1, inr (with_video result out)) /\
      exists evs, trace w1 = trace w0 ++ BurnStarted :: evs /\
                  never_runs is_attach evs
  | (w1, inl _) =>
      match addSoftSubtitles env videoPath subtitlePath out (js "en")
              (logged TryingSoftInstead w1) with
      | (w2, inr _) =>
          invocation = (w2, inr (with_video result out)) /\
          with_video result out !! "videoWithSubtitles" = Some (VString out) /\
          with_video result out !! "degraded" = None
      | (w2, inl _) =>
          invocation = final_fallback videoPath out result w2
      end
  end.
Proof.
  intros Hmode subtitlePath out result Hsave invocation.
  subst invocation. rewrite (processSubtitles_hard _ _ _ _ _ _ _ _ Hmode).
  unfold bind. fold subtitlePath out result. rewrite Hsave.
  rewrite hard_branch_unfold.
  pose proof (burn_trace env videoPath subtitlePath out w0) as Htrace.
  destruct (burnSubtitlesIntoVideo env videoPath subtitlePath out w0)
    as [w1 [e1|p1]].
  - destruct (addSoftSubtitles env videoPath subtitlePath out (js "en")
                (logged TryingSoftInstead w1)) as [w2 [e2|p2]]; [reflexivity|].
    split; [reflexivity|]. split; [apply with_video_lookup|].
    apply base_result_no_flag.
  - split; [reflexivity|exact Htrace].
Qed.

Lemma hard_mode_sample : hard_mode sample_opts sample_video.
Proof. repeat split. Qed.

Lemma hard_mode_fallback_order_witness :
  exists w2,
    processSubtitles (sample_env true) (js "Hi there.") (of_Z 10) (js "out")
      (js "v1") sample_opts sample_world
    = (w2, inr (with_video
                  (result_of (sample_env true) (js "Hi there.") (of_Z 10)
                     (js "out") (js "v1") sample_opts)
                  (js "out/v1_with_subtitles.mp4"))).
Proof.
  pose proof (hard_mode_fallback_order (sample_env true) (js "Hi there.")
                (of_Z 10) (js "out") (js "v1") sample_opts sample_video
                sample_world
                (saveSubtitleFile (sample_env true)
                   (createSmartSubtitles (js "Hi there.") (of_Z 10) (js "srt"))
                   (js "out/v1_subtitles.srt") sample_world).1
                hard_mode_sample eq_refl) as H.
  cbv zeta in H.
  destruct (burnSubtitlesIntoVideo _ _ _ _ _) as [w1 [e1|p1]] eqn:Hb in H;
    [|vm_compute in Hb; discriminate].
  destruct (addSoftSubtitles _ _ _ _ _ _) as [w2 [e2|p2]] eqn:Hs in H.
  - vm_compute in Hb. injection Hb as <- <-. vm_compute in Hs. discriminate.
  - exists w2. exact (proj1 H).
Defined.

Lemma final_fallback_copies videoPath out result w content :
  files (fs w) !! videoPath = Some content ->
  out ∉ dirs (fs w) ->
  final_fallback videoPath out result w =
  ({| fs := write_in (fs w) out content;
      trace := trace w ++ [BothMethodsFailed; OriginalVideoCopied] |},
   inr (with_video result out)).
Proof.
  intros Hfile Hdir.
  unfold final_fallback, bind, emit, copyFileSync, ret. cbn [fs trace].
  rewrite Hfile, bool_decide_eq_false_2 by done.
  cbn [fs trace]. by rewrite <- app_assoc.
Qed.

(** C1, against the statement of the specification: with an engine that
    fails both to burn and to attach, the invocation copies the video and
    succeeds, and its result has no [degraded] field. *)
Lemma degraded_flag_not_reported : ~ degraded_flag_reported.
Proof.
  intros H.
  destruct (H (sample_env false) (js "Hi there.") (of_Z 10) (js "out")
              (js "v1") sample_opts sample_video sample_world
              (saveSubtitleFile (sample_env false)
                 (createSmartSubtitles (js "Hi there.") (of_Z 10) (js "srt"))
                 (js "out/v1_subtitles.srt") sample_world).1
              _ (EngineError (js "No such filter: 'subtitles'"))
              _ (EngineError (js "Conversion failed!"))
              hard_mode_sample eq_refl eq_refl eq_refl)
    as (w3 & result & Hrun & _ & Hflag).
  vm_compute in Hrun. injection Hrun as _ <-.
  vm_compute in Hflag. discriminate.
Qed.

(** C1, amended: when both rendering attempts fail and the source video is
    still a file (and the output path is not a directory), the invocation
    copies the video unchanged to the output path and returns normally; the
    result is the one of a successful rendering, [videoWithSubtitles] set to
    the output path, and has no [degraded] field. *)
Theorem total_failure_copies_video env scriptText videoDuration outputDir
    videoId opts videoPath w w0 w1 e1 w2 e2 content :
  hard_mode opts videoPath ->
  let subtitlePath := subtitlePath_of env outputDir videoId opts in
  let out := outputVideoPath_of env outputDir videoId in
  let result := result_of env scriptText videoDuration outputDir videoId opts in
  saveSubtitleFile env
    (createSmartSubtitles scriptText videoDuration
       (default (js "srt") (opt_format opts))) subtitlePath w
    = (w0, inr subtitlePath) ->
  burnSubtitlesIntoVideo env videoPath subtitlePath out w0 = (w1, inl e1) ->
  addSoftSubtitles env videoPath subtitlePath out (js "en")
    (logged TryingSoftInstead w1) = (w2, inl e2) ->
  files (fs w2) !! videoPath = Some content ->
  out ∉ dirs (fs w2) ->
  exists w3,
    processSubtitles env scriptText videoDuration outputDir videoId opts w
      = (w3, inr (with_video result out)) /\
    fs w3 = write_in (fs w2) out content /\
    files (fs w3) !! out = Some content /\
    trace w3 = trace w2 ++ [BothMethodsFailed; OriginalVideoCopied] /\
    with_video result out !! "videoWithSubtitles" = Some (VString out) /\
    with_video result out !! "degraded" = None.
Proof.
  intros Hmode subtitlePath out result Hsave Hburn Hsoft Hfile Hdir.
  rewrite (processSubtitles_hard _ _ _ _ _ _ _ _ Hmode).
  unfold bind. fold subtitlePath out result. rewrite Hsave.
  rewrite hard_branch_unfold, Hburn, Hsoft.
  rewrite (final_fallback_copies _ _ _ _ _ Hfile Hdir).
  eexists. split; [reflexivity|]. cbn [fs trace].
  split; [reflexivity|]. split; [apply lookup_insert_eq|].
  split; [reflexivity|]. split; [apply with_video_lookup|].
  apply base_result_no_flag.
Qed.

Lemma total_failure_copies_video_witness :
  exists w3,
    processSubtitles (sample_env false) (js "Hi there.") (of_Z 10) (js "out")
      (js "v1") sample_opts sample_world
    = (w3, inr (with_video
                  (result_of (sample_env false) (js "Hi there.") (of_Z 10)
                     (js "out") (js "v1") sample_opts)
                  (js "out/v1_with_subtitles.mp4"))) /\
    files (fs w3) !! js "out/v1_with_subtitles.mp4" = Some [0; 0; 0; 24; 102]%N.
Proof.
  destruct (total_failure_copies_video (sample_env false) (js "Hi there.")
              (of_Z 10) (js "out") (js "v1") sample_opts sample_video
              sample_world
              (saveSubtitleFile (sample_env false)
                 (createSmartSubtitles (js "Hi there.") (of_Z 10) (js "srt"))
                 (js "out/v1_subtitles.srt") sample_world).1
              _ (EngineError (js "No such filter: 'subtitles'"))
              _ (EngineError (js "Conversion failed!"))
              [0; 0; 0; 24; 102]%N
              hard_mode_sample eq_refl eq_refl eq_refl)
    as (w3 & Hrun & _ & Hfile & _).
  - vm_compute. reflexivity.
  - vm_compute. discriminate.
  - exists w3. split; [exact Hrun | exact Hfile].
Defined.

Lemma missing_is_no_file f p : exists_in f p = false -> files f !! p = None.
Proof.
  unfold exists_in. intros H. apply orb_false_iff in H as [H _].
  apply bool_decide_eq_false in H.
  destruct (files f !! p) eqn:E; [|done]. destruct H. by eexists.
Qed.

Lemma burn_missing_input env videoPath subtitlePath out w :
  exists_in (fs w) videoPath = false \/ exists_in (fs w) subtitlePath = false ->
  burnSubtitlesIntoVideo env videoPath subtitlePath out w =
  (logged BurnStarted w, inl (missing_input_error (fs w) videoPath subtitlePath)).
Proof.
  intros H. unfold burnSubtitlesIntoVideo, bind, emit, existsSync, throw,
    missing_input_error, logged. cbn [fs trace].
  destruct (exists_in (fs w) videoPath); cbn [negb fs]; [|reflexivity].
  destruct H as [H|H]; [discriminate|]. rewrite H. reflexivity.
Qed.

Lemma soft_missing_input env videoPath subtitlePath out language w :
  exists_in (fs w) videoPath = false \/ exists_in (fs w) subtitlePath = false ->
  addSoftSubtitles env videoPath subtitlePath out language w =
  (logged SoftStarted w, inl (missing_input_error (fs w) videoPath subtitlePath)).
Proof.
  intros H. unfold addSoftSubtitles, bind, emit, existsSync, throw,
    missing_input_error, logged. cbn [fs trace].
  destruct (exists_in (fs w) videoPath); cbn [negb fs]; [|reflexivity].
  destruct H as [H|H]; [discriminate|]. rewrite H. reflexivity.
Qed.

(** C8, against the statement of the specification: with the source video
    missing, the hard branch does not stop at the error of the first check;
    it goes on to start the soft strategy and to attempt the copy, and the
    error it ends with is the one of the copy. *)
Lemma missing_input_is_retried : ~ missing_input_fails_without_retry.
Proof.
  intros H.
  destruct (H (sample_env true) sample_video (js "out/v1_subtitles.srt")
              (js "out/v1_with_subtitles.mp4") ∅ empty_world (or_introl eq_refl))
    as (w' & e & Hrun & _ & Htrace).
  vm_compute in Hrun. injection Hrun as <- _.
  vm_compute in Htrace. discriminate.
Qed.

(** C8, amended: each of the two rendering functions checks both input
    paths before anything else and, if one is missing, rejects with the
    "not found" error without running the engine or touching a file.  The
    hard branch treats this rejection like any other failure: it starts the
    soft strategy, which is rejected in the same way, and then attempts the
    copy; with the video missing the copy throws, so the invocation fails
    with the error of the copy and the engine has never run. *)
Theorem missing_input_rejected_by_each_strategy env videoPath subtitlePath
    out language result w :
  exists_in (fs w) videoPath = false \/ exists_in (fs w) subtitlePath = false ->
  let e := missing_input_error (fs w) videoPath subtitlePath in
  let after (evs : list event) := {| fs := fs w; trace := trace w ++ evs |} in
  burnSubtitlesIntoVideo env videoPath subtitlePath out w
    = (after [BurnStarted], inl e) /\
  addSoftSubtitles env videoPath subtitlePath out language w
    = (after [SoftStarted], inl e) /\
  hard_branch env videoPath subtitlePath out result w
    = final_fallback videoPath out result
        (after [BurnStarted; TryingSoftInstead; SoftStarted]) /\
  (exists_in (fs w) videoPath = false ->
   hard_branch env videoPath subtitlePath out result w
     = (after [BurnStarted; TryingSoftInstead; SoftStarted; BothMethodsFailed],
        inl (ENOENT videoPath))).
Proof.
  intros H e after.
  assert (Hhard : hard_branch env videoPath subtitlePath out result w
    = final_fallback videoPath out result
        (after [BurnStarted; TryingSoftInstead; SoftStarted])).
  { rewrite hard_branch_unfold, (burn_missing_input _ _ _ _ _ H).
    rewrite soft_missing_input by exact H.
    unfold logged, after. cbn [fs trace]. by rewrite <- !app_assoc. }
  split; [apply (burn_missing_input _ _ _ _ _ H)|].
  split; [apply (soft_missing_input _ _ _ _ _ _ H)|].
  split; [exact Hhard|].
  intros Hvideo. rewrite Hhard.
  unfold final_fallback, bind, emit, copyFileSync, after. cbn [fs trace].
  rewrite (missing_is_no_file _ _ Hvideo). by rewrite <- !app_assoc.
Qed.

Lemma missing_input_rejected_by_each_strategy_witness :
  burnSubtitlesIntoVideo (sample_env true) sample_video
    (js "out/v1_subtitles.srt") (js "out/v1_with_subtitles.mp4") empty_world
  = ({| fs := fs empty_world; trace := [BurnStarted] |},
     inl (VideoFileNotFound sample_video)).
Proof.
  exact (proj1 (missing_input_rejected_by_each_strategy (sample_env true)
                  sample_video (js "out/v1_subtitles.srt")
                  (js "out/v1_with_subtitles.mp4") (js "en") ∅ empty_world
                  (or_introl eq_refl))).
Defined.
